(** * The authentication middleware of auth-app

    A shallow embedding of [authMiddleware] (the Express middleware that
    guards the protected routes) and the properties its specification
    states about it.

    The middleware is JavaScript: it reads a header of the request, strips
    the scheme with [String.prototype.replace], hands the rest to
    [jwt.verify] of the jsonwebtoken package together with
    [process.env.JWT_SECRET], stores the decoded payload in [req.user] and
    calls [next]; the whole body sits in one [try] block whose [catch]
    chooses the response by the [name] of the error.  The embedding keeps
    that shape: a state-and-exception monad for the statements, the request
    and response objects as records in the state, and the two foreign
    functions ([jwt.verify], [next]) as parameters. *)

From Stdlib Require Import ZArith Ascii String Lia.
From stdpp Require Import base option list countable strings gmap.

Local Open Scope Z_scope.

(** ** JavaScript values the middleware handles *)

(** What [req.header(name)] and [process.env.NAME] evaluate to: the string,
    or [undefined] when the header or the variable is not there. *)
Inductive jsval : Type :=
  | undefined
  | str (s : string).

#[global] Instance jsval_eq_dec : EqDecision jsval.
Proof. solve_decision. Defined.

(** [!v]: [undefined] and the empty string are the falsy ones. *)
Definition falsy (v : jsval) : bool :=
  match v with
  | undefined => true
  | str EmptyString => true
  | str (String _ _) => false
  end.

(** The receiver of a method call on a value already known to be a string. *)
Definition as_string (v : jsval) : string :=
  match v with
  | undefined => "undefined"
  | str s => s
  end.

(** *** Strings *)

Module JsString.

(** [s.startsWith(pat)] *)
Fixpoint startsWith (pat s : string) : bool :=
  match pat, s with
  | EmptyString, _ => true
  | String _ _, EmptyString => false
  | String a pat', String b s' =>
      if Ascii.eqb a b then startsWith pat' s' else false
  end.

(** [s.slice(n)] *)
Fixpoint drop (n : nat) (s : string) : string :=
  match n, s with
  | O, _ => s
  | S _, EmptyString => EmptyString
  | S n', String _ s' => drop n' s'
  end.

(** [s.includes(pat)] *)
Fixpoint includes (pat s : string) : bool :=
  startsWith pat s ||
  match s with
  | EmptyString => false
  | String _ s' => includes pat s'
  end.

(** [s.replace(pat, rep)] with a string pattern: the leftmost occurrence
    of [pat] is replaced, the rest of [s] is kept; without an occurrence
    the result is [s].  (The replacement text is taken literally; the
    middleware replaces by the empty string, which holds no [$]
    pattern.) *)
Fixpoint replace (pat rep s : string) : string :=
  if startsWith pat s then rep +:+ drop (String.length pat) s
  else match s with
       | EmptyString => EmptyString
       | String c s' => String c (replace pat rep s')
       end.

End JsString.

(** *** Token payloads and errors *)

(** A claim value: the payloads this application issues hold strings (the
    user id) and numbers (the [iat] and [exp] timestamps, in seconds). *)
Inductive jvalue : Type :=
  | JStr (s : string)
  | JNum (n : Z).

#[global] Instance jvalue_eq_dec : EqDecision jvalue.
Proof. solve_decision. Defined.

#[global] Instance jvalue_countable : Countable jvalue.
Proof.
  refine (inj_countable'
            (λ v, match v with JStr s => inl s | JNum n => inr n end)
            (λ x, match x with inl s => JStr s | inr n => JNum n end) _).
  by intros [].
Defined.

(** The decoded payload is a JavaScript object: a finite map from claim
    names to values. *)
Abbreviation payload := (gmap string jvalue).

(** The [exp] claim, when it is there and is a number. *)
Definition claim_exp (p : payload) : option Z :=
  match p !! "exp" with
  | Some (JNum e) => Some e
  | _ => None
  end.

(** A thrown error, as far as the [catch] block looks at it. *)
Record Error : Type := mkError { name : string; message : string }.

#[global] Instance Error_eq_dec : EqDecision Error.
Proof. solve_decision. Defined.

(** How the evaluation of a call ends: with a value, or with a throw.
    What is thrown is an [Error] object, as jsonwebtoken throws them; a
    thrown [null] or [undefined], on which reading [error.name] throws in
    turn, and a response object whose methods throw are not modelled, so
    nothing here says that no error can leave the middleware. *)
Inductive completion (A : Type) : Type :=
  | Normal (a : A)
  | Throw (e : Error).
Arguments Normal {A} a.
Arguments Throw {A} e.

(** ** The objects the middleware works on *)

(** [process]: the middleware reads one variable of its environment. *)
Record Process : Type := mkProcess { env_JWT_SECRET : jsval }.

(** [req]: the [Authorization] header as [req.header] returns it, and the
    [user] property ([None] while it has not been assigned). *)
Record Request : Type := mkRequest {
  req_authorization : jsval;
  req_user : option payload
}.

(** [res]: the status code and the JSON body's [message] once one was sent
    ([res.json({ message })]). *)
Record Response : Type := mkResponse {
  res_statusCode : Z;
  res_sent : option string
}.

(** The calls that leave the middleware, in the order they are made. *)
Inductive Call : Type :=
  | CallVerify (token : string) (secret : jsval)
  | CallNext (r : Request).

Record State : Type := mkState {
  proc : Process;
  req : Request;
  res : Response;
  calls : list Call
}.

(** ** Statements: state and exceptions *)

Definition M (A : Type) : Type := State → completion A * State.

#[global] Instance M_ret : MRet M := λ A a s, (Normal a, s).

#[global] Instance M_bind : MBind M := λ A B f m s,
  match m s with
  | (Normal a, s') => f a s'
  | (Throw e, s') => (Throw e, s')
  end.

(** [try { body } catch (error) { handler }] *)
Definition try_catch {A} (body : M A) (handler : Error → M A) : M A := λ s,
  match body s with
  | (Normal a, s') => (Normal a, s')
  | (Throw e, s') => handler e s'
  end.

(** [req.header('Authorization')] *)
Definition req_header_Authorization : M jsval := λ s,
  (Normal (req_authorization (req s)), s).

(** [process.env.JWT_SECRET] *)
Definition process_env_JWT_SECRET : M jsval := λ s,
  (Normal (env_JWT_SECRET (proc s)), s).

(** [res.status(code)] *)
Definition res_status (code : Z) : M unit := λ s,
  (Normal (),
   mkState (proc s) (req s) (mkResponse code (res_sent (res s))) (calls s)).

(** [res.json({ message: msg })] *)
Definition res_json (msg : string) : M unit := λ s,
  (Normal (),
   mkState (proc s) (req s)
           (mkResponse (res_statusCode (res s)) (Some msg)) (calls s)).

(** [req.user = decoded] *)
Definition set_req_user (decoded : payload) : M unit := λ s,
  (Normal (),
   mkState (proc s) (mkRequest (req_authorization (req s)) (Some decoded))
           (res s) (calls s)).

Section Middleware.

(** [jwt.verify(token, secret)] of the jsonwebtoken package, which is not
    part of the repository: what it returns or throws for a token, a
    secret and the time (in seconds) its clock shows. *)
Variable jwt_verify : string → jsval → Z → completion payload.

(** The rest of the pipeline, as [next] reaches it: what happens when it
    is handed the request. *)
Variable next_handler : Request → completion unit.

(** The time at which the request is handled. *)
Variable now : Z.

Definition call_jwt_verify (token : string) (secret : jsval) : M payload :=
  λ s, (jwt_verify token secret now,
        mkState (proc s) (req s) (res s)
                (calls s ++ [CallVerify token secret])).

Definition call_next : M unit :=
  λ s, (next_handler (req s),
        mkState (proc s) (req s) (res s) (calls s ++ [CallNext (req s)])).

Definition authMiddleware : M unit :=
  try_catch
    (authHeader ← req_header_Authorization;
     if falsy authHeader then
       res_status 401;;
       res_json "Access denied. No token provided."
     else
       let token := JsString.replace "Bearer " "" (as_string authHeader) in
       if falsy (str token) then
         res_status 401;;
         res_json "Access denied. Invalid token format."
       else
         secret ← process_env_JWT_SECRET;
         decoded ← call_jwt_verify token secret;
         set_req_user decoded;;
         call_next)
    (λ error,
       if String.eqb (name error) "JsonWebTokenError" then
         res_status 401;;
         res_json "Access denied. Invalid token."
       else if String.eqb (name error) "TokenExpiredError" then
         res_status 401;;
         res_json "Access denied. Token expired."
       else
         res_status 500;;
         res_json "Server error during authentication.").

End Middleware.

(** A request as it reaches the middleware: no [user] yet, a response
    object on which nothing was sent, no call made. *)
Definition incoming (P : Process) (authorization : jsval) : State :=
  mkState P (mkRequest authorization None) (mkResponse 200 None) [].

(** Handling one request with a given header. *)
Definition handle jwt_verify next_handler (P : Process) (now : Z)
    (authorization : jsval) : State :=
  snd (authMiddleware jwt_verify next_handler now (incoming P authorization)).

(** ** The token library *)

(** The jsonwebtoken package as far as the application uses it: the issuer
    signs a payload with a secret ([jwt.sign], which refuses an empty
    secret), the middleware verifies.  The properties are the contract the
    specification relies on: a token verified with the secret it was signed
    with yields its payload back as long as its [exp] lies ahead of the
    clock, is reported as expired from [exp] on, and a token verified with
    any other secret is reported as invalid whatever it holds. *)
Class JwtLibrary : Type := {
  jwt_sign : payload → string → string;
  jwt_verify : string → jsval → Z → completion payload;
  jwt_sign_nonempty p s :
    s ≠ "" → jwt_sign p s ≠ "";
  jwt_verify_accepts p s now e :
    s ≠ "" → claim_exp p = Some e → now < e →
    jwt_verify (jwt_sign p s) (str s) now = Normal p;
  jwt_verify_expired p s now e :
    s ≠ "" → claim_exp p = Some e → e ≤ now →
    ∃ err, jwt_verify (jwt_sign p s) (str s) now = Throw err
           ∧ name err = "TokenExpiredError";
  jwt_verify_other_secret p s t now :
    s ≠ "" → t ≠ s →
    ∃ err, jwt_verify (jwt_sign p s) (str t) now = Throw err
           ∧ name err = "JsonWebTokenError"
}.

(** *** A test double of the library

    Tokens of the double are the binary digits of the code of the pair of
    payload and secret.  It is of no use as a signature scheme; it is there
    to run the middleware on concrete requests and to show that the
    contract above can be met. *)
Module Double.

Fixpoint digits (n : positive) : string :=
  match n with
  | xH => "1"
  | xO m => String "0" (digits m)
  | xI m => String "1" (digits m)
  end.

Fixpoint undigits (s : string) : option positive :=
  match s with
  | EmptyString => None
  | String c EmptyString => if Ascii.eqb c "1" then Some xH else None
  | String c s' =>
      m ← undigits s';
      if Ascii.eqb c "0" then Some (xO m)
      else if Ascii.eqb c "1" then Some (xI m)
      else None
  end.

Definition sign (p : payload) (s : string) : string :=
  digits (encode (p, s)).

Definition unsign (token : string) : option (payload * string) :=
  undigits token ≫= decode.

Definition verify (token : string) (secret : jsval) (now : Z)
    : completion payload :=
  match unsign token with
  | None => Throw (mkError "JsonWebTokenError" "jwt malformed")
  | Some (p, s) =>
      if falsy secret then
        Throw (mkError "JsonWebTokenError"
                       "secret or public key must be provided")
      else if bool_decide (secret = str s) then
        match claim_exp p with
        | Some e =>
            if bool_decide (e ≤ now)
            then Throw (mkError "TokenExpiredError" "jwt expired")
            else Normal p
        | None => Normal p
        end
      else Throw (mkError "JsonWebTokenError" "invalid signature")
  end.

End Double.


(** ** What can be observed of a handled request *)

(** A response was sent: the middleware answered the request itself. *)
Definition responded (st : State) : bool :=
  match res_sent (res st) with
  | Some _ => true
  | None => false
  end.

Definition is_next (c : Call) : bool :=
  match c with
  | CallNext _ => true
  | CallVerify _ _ => false
  end.

(** [next] was called: the request went on to the next handler. *)
Definition forwarded (st : State) : bool :=
  existsb is_next (calls st).

(** A call of [next] ended with a throw. *)
Definition next_threw (next_handler : Request → completion unit)
    (st : State) : bool :=
  existsb (λ c, match c with
                | CallNext r =>
                    match next_handler r with
                    | Throw _ => true
                    | Normal _ => false
                    end
                | CallVerify _ _ => false
                end)
          (calls st).

(** ** Sample data

    The scenario of the specification: a token with the claim [id: "u1"],
    issued with the secret ["S"] and good for seven days. *)
Module Sample.

Definition issued_at : Z := 1700000000.

Definition claims : payload :=
  {[ "id" := JStr "u1";
     "iat" := JNum issued_at;
     "exp" := JNum (issued_at + 7 * 86400) ]}.

Definition token : string := Double.sign claims "S".

Definition header : string := "Bearer " +:+ token.

Definition guard : Process := mkProcess (str "S").

Definition other_guard : Process := mkProcess (str "T").



Definition handler_returns : Request → completion unit :=
  λ _, Normal ().

Definition handler_throws : Request → completion unit :=
  λ _, Throw (mkError "TypeError" "Cannot read properties of undefined").

End Sample.

(** ** The secret generator of the README

    The README gives a Python function to produce the value of
    [JWT_SECRET]: it joins [length] characters, each picked by
    [secrets.choice] from the letters, the digits and eight punctuation
    marks. *)
Module Readme.

(** [string.ascii_letters] *)
Definition ascii_letters : string :=
  "abcdefghijklmnopqrstuvwxyzABCDEFGHIJKLMNOPQRSTUVWXYZ".

(** [string.digits] *)
Definition digits : string := "0123456789".

(** [secrets.choice(seq)] is [seq[randbelow(len(seq))]]: an [IndexError]
    ([None]) on an empty sequence, else the element at an index below the
    length, here the one a number [r] of the random source falls on. *)
Definition secrets_choice (r : nat) (seq : string) : option ascii :=
  match String.length seq with
  | O => None
  | S _ => String.get (r mod String.length seq) seq
  end.

(** [generate_jwt_secret(length)], with [rng i] the number the random
    source yields for the [i]-th pick; [range(length)] is empty for a
    length that is not positive. *)
Definition generate_jwt_secret (rng : nat → nat) (length : Z)
    : option string :=
  let characters := ascii_letters +:+ digits +:+ "!@#$%^&*" in
  picks ← mapM (λ i, secrets_choice (rng i) characters)
               (seq 0 (Z.to_nat length));
  Some (string_of_list_ascii picks).

End Readme.

(** * Properties *)

(** ** Strings *)

Module JsStringFacts.
Import JsString.

(** [replace] on the shapes of header the middleware meets. *)
Example replace_scheme_and_token :
  replace "Bearer " "" "Bearer abc.def.ghi" = "abc.def.ghi".
Proof. reflexivity. Qed.

Example replace_no_scheme : replace "Bearer " "" "abc.def.ghi" = "abc.def.ghi".
Proof. reflexivity. Qed.

Example replace_other_case : replace "Bearer " "" "bearer abc" = "bearer abc".
Proof. reflexivity. Qed.

Example replace_only_leftmost :
  replace "Bearer " "" "Bearer Bearer abc" = "Bearer abc".
Proof. reflexivity. Qed.

Example replace_inside : replace "Bearer " "" "Token Bearer abc" = "Token abc".
Proof. reflexivity. Qed.

Lemma startsWith_iff pat s :
  startsWith pat s = true ↔ ∃ rest, s = pat +:+ rest.
Proof.
  revert s. induction pat as [|a pat IH]; intros s; simpl.
  - split; [intros _; by exists s | done].
  - destruct s as [|b s].
    + split; [done | by intros [rest ?]].
    + destruct (Ascii.eqb_spec a b) as [->|Hab].
      * rewrite IH. split; intros [rest Hrest]; exists rest.
        -- by rewrite Hrest.
        -- by injection Hrest.
      * split; [done | intros [rest Hrest]; by injection Hrest].
Qed.

Lemma startsWith_app pat s : startsWith pat (pat +:+ s) = true.
Proof. apply startsWith_iff. by exists s. Qed.

Lemma drop_app pat s : drop (String.length pat) (pat +:+ s) = s.
Proof. induction pat as [|a pat IH]; simpl; [by destruct s | done]. Qed.

(** [includes] finds exactly the strings that hold an occurrence. *)
Lemma includes_iff pat s :
  includes pat s = true ↔ ∃ before rest, s = before +:+ pat +:+ rest.
Proof.
  induction s as [|c s IH]; simpl.
  - rewrite orb_false_r, startsWith_iff. split.
    + intros [rest ->]. by exists "", rest.
    + intros [before [rest Heq]]. destruct before; [by exists rest | done].
  - rewrite orb_true_iff, startsWith_iff, IH. split.
    + intros [[rest ->]|[before [rest ->]]].
      * by exists "", rest.
      * by exists (String c before), rest.
    + intros [before [rest Heq]]. destruct before as [|c' before].
      * left. by exists rest.
      * right. exists before, rest. by injection Heq.
Qed.

Lemma includes_false_inv pat c s :
  includes pat (String c s) = false →
  startsWith pat (String c s) = false ∧ includes pat s = false.
Proof. simpl. by intros [??]%orb_false_iff. Qed.

Lemma includes_false_startsWith pat s :
  includes pat s = false → startsWith pat s = false.
Proof. destruct s; simpl; by intros [??]%orb_false_iff. Qed.

(** The leftmost occurrence is the one that goes. *)
Lemma replace_at_start pat rep s :
  replace pat rep (pat +:+ s) = rep +:+ s.
Proof.
  destruct (pat +:+ s) eqn:Heq; simpl; rewrite <- Heq;
    by rewrite startsWith_app, drop_app.
Qed.

(** Without an occurrence [replace] returns its receiver. *)
Lemma replace_absent pat rep s :
  includes pat s = false → replace pat rep s = s.
Proof.
  induction s as [|c s IH]; intros Hs.
  - simpl in *. apply orb_false_iff in Hs as [-> _]. done.
  - apply includes_false_inv in Hs as [Hstart Hrest].
    cbn [replace]. rewrite Hstart. f_equal. by apply IH.
Qed.

Lemma startsWith_cons a pat b s :
  startsWith (String a pat) (String b s)
  = if Ascii.eqb a b then startsWith pat s else false.
Proof. reflexivity. Qed.

Lemma append_cons c (s t : string) : String c s +:+ t = String c (s +:+ t).
Proof. reflexivity. Qed.

(** No proper suffix of ["Bearer "] is a prefix of it, so an occurrence
    cannot begin inside a text and run over into a following one. *)
Lemma bearer_no_overlap x rest :
  x ≠ "" →
  startsWith "Bearer " x = false →
  startsWith "Bearer " (x +:+ "Bearer " +:+ rest) = false.
Proof.
  intros Hne Hx.
  destruct x as [|c x]; [done|clear Hne].
  do 6 (rewrite append_cons, startsWith_cons; rewrite startsWith_cons in Hx;
        lazymatch goal with
        | |- context [Ascii.eqb ?a c] =>
            destruct (Ascii.eqb_spec a c) as [<-|]; [|done]
        end;
        destruct x as [|c x]; [reflexivity|]).
  rewrite append_cons, startsWith_cons. rewrite startsWith_cons in Hx.
  by destruct (Ascii.eqb_spec " " c).
Qed.

Lemma replace_first_bearer x rest :
  includes "Bearer " x = false →
  replace "Bearer " "" (x +:+ "Bearer " +:+ rest) = x +:+ rest.
Proof.
  induction x as [|c x IH]; intros Hx.
  - apply (replace_at_start "Bearer " "" rest).
  - apply includes_false_inv in Hx as [Hstart Hrest].
    change (String c x +:+ "Bearer " +:+ rest)
      with (String c (x +:+ "Bearer " +:+ rest)).
    cbn [replace].
    change (String c (x +:+ "Bearer " +:+ rest))
      with (String c x +:+ "Bearer " +:+ rest) at 1.
    rewrite bearer_no_overlap by done.
    rewrite (append_cons c x rest). f_equal. by apply IH.
Qed.

Lemma length_app (a b : string) :
  String.length (a +:+ b) = (String.length a + String.length b)%nat.
Proof. induction a as [|c a IH]; simpl; [done | by rewrite IH]. Qed.

End JsStringFacts.

(** ** The paths through the middleware *)

Ltac project_state :=
  cbn [fst snd proc req res calls req_authorization req_user
       res_statusCode res_sent app].

Ltac unfold_middleware :=
  unfold handle, authMiddleware, try_catch, incoming, mbind, M_bind,
    req_header_Authorization, process_env_JWT_SECRET, call_jwt_verify,
    call_next, set_req_user, res_status, res_json;
  project_state.

Tactic Notation "take_branch" constr(H) := rewrite H; project_state.

Section Paths.

Variable verify : string → jsval → Z → completion payload.
Variable next_handler : Request → completion unit.
Variable P : Process.
Variable now : Z.

Lemma falsy_false_str h :
  falsy h = false → ∃ c s, h = str (String c s).
Proof. destruct h as [|[|c s]]; [done..|]. intros _. by exists c, s. Qed.

Lemma falsy_str s : falsy (str s) = false ↔ s ≠ "".
Proof. by destruct s. Qed.

(** First [if]: nothing to look at. *)
Lemma handle_missing h :
  falsy h = true →
  handle verify next_handler P now h
  = mkState P (mkRequest h None)
            (mkResponse 401 (Some "Access denied. No token provided.")) [].
Proof. intros Hh. unfold_middleware. by take_branch Hh. Qed.

(** Second [if]: nothing left once the scheme is taken out. *)
Lemma handle_malformed h :
  falsy h = false →
  JsString.replace "Bearer " "" (as_string h) = "" →
  handle verify next_handler P now h
  = mkState P (mkRequest h None)
            (mkResponse 401 (Some "Access denied. Invalid token format."))
            [].
Proof.
  intros Hh Ht. unfold_middleware. take_branch Hh. by take_branch Ht.
Qed.

(** [jwt.verify] throws: the [catch] block answers by the error's name. *)
Lemma handle_verify_throws h err :
  falsy h = false →
  JsString.replace "Bearer " "" (as_string h) ≠ "" →
  verify (JsString.replace "Bearer " "" (as_string h))
         (env_JWT_SECRET P) now = Throw err →
  handle verify next_handler P now h
  = mkState P (mkRequest h None)
      (if String.eqb (name err) "JsonWebTokenError"
       then mkResponse 401 (Some "Access denied. Invalid token.")
       else if String.eqb (name err) "TokenExpiredError"
       then mkResponse 401 (Some "Access denied. Token expired.")
       else mkResponse 500 (Some "Server error during authentication."))
      [CallVerify (JsString.replace "Bearer " "" (as_string h))
                  (env_JWT_SECRET P)].
Proof.
  intros Hh Ht%falsy_str Hv. unfold_middleware.
  take_branch Hh. take_branch Ht. take_branch Hv.
  by repeat case_match.
Qed.

(** [jwt.verify] returns: the payload goes into [req.user] and [next] is
    called with that request; should [next] throw, the [catch] block
    answers that error too. *)
Lemma handle_verified h p :
  falsy h = false →
  JsString.replace "Bearer " "" (as_string h) ≠ "" →
  verify (JsString.replace "Bearer " "" (as_string h))
         (env_JWT_SECRET P) now = Normal p →
  handle verify next_handler P now h
  = mkState P (mkRequest h (Some p))
      (match next_handler (mkRequest h (Some p)) with
       | Normal _ => mkResponse 200 None
       | Throw err =>
           if String.eqb (name err) "JsonWebTokenError"
           then mkResponse 401 (Some "Access denied. Invalid token.")
           else if String.eqb (name err) "TokenExpiredError"
           then mkResponse 401 (Some "Access denied. Token expired.")
           else mkResponse 500 (Some "Server error during authentication.")
       end)
      [CallVerify (JsString.replace "Bearer " "" (as_string h))
                  (env_JWT_SECRET P);
       CallNext (mkRequest h (Some p))].
Proof.
  intros Hh Ht%falsy_str Hv. unfold_middleware.
  take_branch Hh. take_branch Ht. take_branch Hv.
  by repeat case_match.
Qed.

(** Every request takes one of the four paths. *)
Lemma handle_paths h :
  falsy h = true
  ∨ (falsy h = false ∧ JsString.replace "Bearer " "" (as_string h) = "")
  ∨ (falsy h = false ∧ JsString.replace "Bearer " "" (as_string h) ≠ ""
     ∧ ∃ err, verify (JsString.replace "Bearer " "" (as_string h))
                     (env_JWT_SECRET P) now = Throw err)
  ∨ (falsy h = false ∧ JsString.replace "Bearer " "" (as_string h) ≠ ""
     ∧ ∃ p, verify (JsString.replace "Bearer " "" (as_string h))
                   (env_JWT_SECRET P) now = Normal p).
Proof.
  destruct (falsy h) eqn:Hh; [by left|right].
  destruct (decide (JsString.replace "Bearer " "" (as_string h) = ""))
    as [Ht|Ht]; [by left|right].
  destruct (verify (JsString.replace "Bearer " "" (as_string h))
                   (env_JWT_SECRET P) now) as [p|err] eqn:Hv.
  - right. eauto.
  - left. eauto.
Qed.

(** The middleware reads [process.env] and leaves it as it was. *)
Lemma handle_proc h :
  proc (handle verify next_handler P now h) = P.
Proof.
  destruct (handle_paths h) as [?|[[??]|[(?&?&err&?)|(?&?&p&?)]]].
  - by rewrite handle_missing.
  - by rewrite handle_malformed.
  - by rewrite (handle_verify_throws h err).
  - by rewrite (handle_verified h p).
Qed.

(** Once there is a token, [jwt.verify] is the first call made, on that
    token, and the answer is not the one for a malformed credential. *)
Lemma handle_token_tried h :
  falsy h = false →
  JsString.replace "Bearer " "" (as_string h) ≠ "" →
  head (calls (handle verify next_handler P now h))
  = Some (CallVerify (JsString.replace "Bearer " "" (as_string h))
                     (env_JWT_SECRET P))
  ∧ res (handle verify next_handler P now h)
    ≠ mkResponse 401 (Some "Access denied. Invalid token format.").
Proof.
  intros Hh Ht.
  destruct (verify (JsString.replace "Bearer " "" (as_string h))
                   (env_JWT_SECRET P) now) as [p|err] eqn:Hv.
  - rewrite (handle_verified h p) by done. project_state.
    split; [done|]. by repeat case_match.
  - rewrite (handle_verify_throws h err) by done. project_state.
    split; [done|]. by repeat case_match.
Qed.

End Paths.


(** ** The test double keeps the contract *)

Module DoubleFacts.
Import Double.

Lemma digits_nonempty n : digits n ≠ "".
Proof. by destruct n. Qed.

Lemma undigits_digits n : undigits (digits n) = Some n.
Proof.
  induction n as [n IH|n IH|]; [| |done].
  - cbn [digits undigits]. destruct (digits n) eqn:Hn.
    + by destruct (digits_nonempty n).
    + by rewrite IH.
  - cbn [digits undigits]. destruct (digits n) eqn:Hn.
    + by destruct (digits_nonempty n).
    + by rewrite IH.
Qed.

Lemma unsign_sign p s : unsign (sign p s) = Some (p, s).
Proof.
  unfold unsign, sign. rewrite undigits_digits. simpl.
  apply decode_encode.
Qed.

Lemma sign_nonempty p s : s ≠ "" → sign p s ≠ "".
Proof. intros _. apply digits_nonempty. Qed.

Lemma verify_accepts p s now e :
  s ≠ "" → claim_exp p = Some e → now < e →
  verify (sign p s) (str s) now = Normal p.
Proof.
  intros Hs He Hnow. unfold verify. rewrite unsign_sign.
  apply falsy_str in Hs. rewrite Hs, He.
  rewrite bool_decide_eq_true_2 by done.
  by rewrite bool_decide_eq_false_2 by lia.
Qed.

Lemma verify_expired p s now e :
  s ≠ "" → claim_exp p = Some e → e ≤ now →
  ∃ err, verify (sign p s) (str s) now = Throw err
         ∧ name err = "TokenExpiredError".
Proof.
  intros Hs He Hnow. unfold verify. rewrite unsign_sign.
  apply falsy_str in Hs. rewrite Hs, He.
  rewrite bool_decide_eq_true_2 by done.
  rewrite bool_decide_eq_true_2 by done. eauto.
Qed.

Lemma verify_other_secret p s t now :
  s ≠ "" → t ≠ s →
  ∃ err, verify (sign p s) (str t) now = Throw err
         ∧ name err = "JsonWebTokenError".
Proof.
  intros _ Hts. unfold verify. rewrite unsign_sign.
  destruct (falsy (str t)); [eauto|].
  rewrite bool_decide_eq_false_2 by congruence. eauto.
Qed.


End DoubleFacts.

Definition double_library : JwtLibrary :=
  {| jwt_sign := Double.sign;
     jwt_verify := Double.verify;
     jwt_sign_nonempty := DoubleFacts.sign_nonempty;
     jwt_verify_accepts := DoubleFacts.verify_accepts;
     jwt_verify_expired := DoubleFacts.verify_expired;
     jwt_verify_other_secret := DoubleFacts.verify_other_secret |}.

(** * The claims of the specification *)

(** C2.  A request without an [Authorization] header is answered with 401
    and "Access denied. No token provided."; the check comes first: the
    answer does not depend on the secret, the clock or the token library,
    [jwt.verify] and [next] are not called and [req.user] stays unset. *)
Theorem missing_header_is_rejected_first
    (verify : string → jsval → Z → completion payload)
    (next_handler : Request → completion unit) (P : Process) (now : Z) :
  handle verify next_handler P now undefined
  = mkState P (mkRequest undefined None)
            (mkResponse 401 (Some "Access denied. No token provided.")) [].
Proof. by apply handle_missing. Qed.

(** C3.  A request whose header is exactly ["Bearer "] is answered with 401
    and "Access denied. Invalid token format."; [jwt.verify] is not
    called (nor is [next]). *)
Theorem bare_scheme_is_malformed
    (verify : string → jsval → Z → completion payload)
    (next_handler : Request → completion unit) (P : Process) (now : Z) :
  handle verify next_handler P now (str "Bearer ")
  = mkState P (mkRequest (str "Bearer ") None)
            (mkResponse 401 (Some "Access denied. Invalid token format."))
            [].
Proof. by apply handle_malformed. Qed.

(** C4.  A non-empty header that does not contain ["Bearer "] is handed to
    [jwt.verify] as it is, as the first thing the middleware calls, and the
    answer is never the one for a malformed credential. *)
Theorem header_without_scheme_is_verified
    (verify : string → jsval → Z → completion payload)
    (next_handler : Request → completion unit) (P : Process) (now : Z)
    (h : string) :
  h ≠ "" →
  JsString.includes "Bearer " h = false →
  let st := handle verify next_handler P now (str h) in
  head (calls st) = Some (CallVerify h (env_JWT_SECRET P))
  ∧ res st ≠ mkResponse 401 (Some "Access denied. Invalid token format.").
Proof.
  intros Hh Hno st.
  pose proof (JsStringFacts.replace_absent "Bearer " "" h Hno) as Htoken.
  destruct (handle_token_tried verify next_handler P now (str h))
    as [Hcall Hres].
  - by apply falsy_str.
  - simpl. by rewrite Htoken.
  - simpl in Hcall. by rewrite Htoken in Hcall.
Qed.

Lemma header_without_scheme_is_verified_witness :
  let st := handle Double.verify Sample.handler_returns Sample.guard
                   (Sample.issued_at + 60) (str Sample.token) in
  head (calls st) = Some (CallVerify Sample.token (str "S"))
  ∧ res st ≠ mkResponse 401 (Some "Access denied. Invalid token format.").
Proof.
  apply (header_without_scheme_is_verified Double.verify
           Sample.handler_returns Sample.guard (Sample.issued_at + 60)
           Sample.token).
  - by vm_compute.
  - by vm_compute.
Defined.

(** What the request carries is the token: the header with the scheme taken
    out is what some issuer signed, so the header is not empty either. *)
Lemma carried_token_nonempty `{lib : JwtLibrary} (h : string) p s :
  s ≠ "" →
  JsString.replace "Bearer " "" h = jwt_sign p s →
  falsy (str h) = false ∧ JsString.replace "Bearer " "" (as_string (str h)) ≠ "".
Proof.
  intros Hs Htoken. pose proof (jwt_sign_nonempty p s Hs) as Hne.
  split.
  - destruct h; [|done]. by rewrite <- Htoken in Hne.
  - simpl. by rewrite Htoken.
Qed.

(** C1.  A request whose token was signed with the secret the guard is
    configured with and whose [exp] is still ahead succeeds: the token is
    verified, the payload the issuer signed is what [req.user] holds, and
    [next] is called with that request; the middleware sends no response
    of its own when the next handler returns. *)
Theorem valid_token_is_forwarded `{lib : JwtLibrary}
    (next_handler : Request → completion unit) (P : Process) (now : Z)
    (h : string) (p : payload) (s : string) (e : Z) :
  env_JWT_SECRET P = str s →
  s ≠ "" →
  JsString.replace "Bearer " "" h = jwt_sign p s →
  claim_exp p = Some e →
  now < e →
  let st := handle jwt_verify next_handler P now (str h) in
  req_user (req st) = Some p
  ∧ calls st = [CallVerify (jwt_sign p s) (str s);
                CallNext (mkRequest (str h) (Some p))]
  ∧ (next_handler (mkRequest (str h) (Some p)) = Normal () →
     res st = mkResponse 200 None).
Proof.
  intros Hsecret Hs Htoken He Hnow st.
  destruct (carried_token_nonempty h p s Hs Htoken) as [Hh Hne].
  unfold st. rewrite (handle_verified _ _ _ _ (str h) p Hh Hne).
  - project_state. simpl as_string. rewrite Htoken, Hsecret.
    split_and!; [done..|]. by intros ->.
  - simpl as_string. rewrite Htoken, Hsecret. by eapply jwt_verify_accepts.
Qed.

Lemma valid_token_is_forwarded_witness :
  let st := handle Double.verify Sample.handler_returns Sample.guard
                   (Sample.issued_at + 60) (str Sample.header) in
  req_user (req st) = Some Sample.claims
  ∧ calls st = [CallVerify Sample.token (str "S");
                CallNext (mkRequest (str Sample.header)
                                    (Some Sample.claims))]
  ∧ (Sample.handler_returns (mkRequest (str Sample.header)
                                       (Some Sample.claims)) = Normal () →
     res st = mkResponse 200 None).
Proof.
  apply (valid_token_is_forwarded (lib := double_library)
           Sample.handler_returns Sample.guard (Sample.issued_at + 60)
           Sample.header Sample.claims "S" (Sample.issued_at + 7 * 86400)).
  - reflexivity.
  - discriminate.
  - reflexivity.
  - by vm_compute.
  - by vm_compute.
Defined.

(** C5.  A request whose token was signed with another secret than the one
    the guard is configured with is answered with 401 and "Access denied.
    Invalid token.", whatever the payload of the token holds; [next] is not
    called. *)
Theorem other_secret_is_invalid `{lib : JwtLibrary}
    (next_handler : Request → completion unit) (P : Process) (now : Z)
    (h : string) (p : payload) (s t : string) :
  env_JWT_SECRET P = str t →
  s ≠ "" →
  t ≠ s →
  JsString.replace "Bearer " "" h = jwt_sign p s →
  handle jwt_verify next_handler P now (str h)
  = mkState P (mkRequest (str h) None)
            (mkResponse 401 (Some "Access denied. Invalid token."))
            [CallVerify (jwt_sign p s) (str t)].
Proof.
  intros Hsecret Hs Hts Htoken.
  destruct (carried_token_nonempty h p s Hs Htoken) as [Hh Hne].
  destruct (jwt_verify_other_secret p s t now Hs Hts) as (err & Hv & Hname).
  rewrite (handle_verify_throws _ _ _ _ (str h) err Hh Hne).
  - simpl as_string. by rewrite Htoken, Hsecret, Hname.
  - simpl as_string. by rewrite Htoken, Hsecret.
Qed.

Lemma other_secret_is_invalid_witness :
  handle Double.verify Sample.handler_returns Sample.other_guard
         (Sample.issued_at + 60) (str Sample.header)
  = mkState Sample.other_guard (mkRequest (str Sample.header) None)
            (mkResponse 401 (Some "Access denied. Invalid token."))
            [CallVerify Sample.token (str "T")].
Proof.
  apply (other_secret_is_invalid (lib := double_library)
           Sample.handler_returns Sample.other_guard (Sample.issued_at + 60)
           Sample.header Sample.claims "S" "T").
  - reflexivity.
  - discriminate.
  - discriminate.
  - reflexivity.
Defined.

(** C6.  A request whose token was signed with the guard's secret and whose
    [exp] lies in the past is answered with 401 and "Access denied. Token
    expired."; that is another answer than the one for an invalid token. *)
Theorem expired_token_is_reported `{lib : JwtLibrary}
    (next_handler : Request → completion unit) (P : Process) (now : Z)
    (h : string) (p : payload) (s : string) (e : Z) :
  env_JWT_SECRET P = str s →
  s ≠ "" →
  JsString.replace "Bearer " "" h = jwt_sign p s →
  claim_exp p = Some e →
  e < now →
  let st := handle jwt_verify next_handler P now (str h) in
  st = mkState P (mkRequest (str h) None)
               (mkResponse 401 (Some "Access denied. Token expired."))
               [CallVerify (jwt_sign p s) (str s)]
  ∧ res st ≠ mkResponse 401 (Some "Access denied. Invalid token.").
Proof.
  intros Hsecret Hs Htoken He Hnow st.
  destruct (carried_token_nonempty h p s Hs Htoken) as [Hh Hne].
  destruct (jwt_verify_expired p s now e Hs He) as (err & Hv & Hname);
    [lia|].
  assert (st = mkState P (mkRequest (str h) None)
                 (mkResponse 401 (Some "Access denied. Token expired."))
                 [CallVerify (jwt_sign p s) (str s)]) as ->; [|done].
  unfold st. rewrite (handle_verify_throws _ _ _ _ (str h) err Hh Hne).
  - simpl as_string. by rewrite Htoken, Hsecret, Hname.
  - simpl as_string. by rewrite Htoken, Hsecret.
Qed.

Lemma expired_token_is_reported_witness :
  let st := handle Double.verify Sample.handler_returns Sample.guard
                   (Sample.issued_at + 7 * 86400 + 1)
                   (str Sample.header) in
  st = mkState Sample.guard (mkRequest (str Sample.header) None)
               (mkResponse 401 (Some "Access denied. Token expired."))
               [CallVerify Sample.token (str "S")]
  ∧ res st ≠ mkResponse 401 (Some "Access denied. Invalid token.").
Proof.
  apply (expired_token_is_reported (lib := double_library)
           Sample.handler_returns Sample.guard
           (Sample.issued_at + 7 * 86400 + 1)
           Sample.header Sample.claims "S" (Sample.issued_at + 7 * 86400)).
  - reflexivity.
  - discriminate.
  - reflexivity.
  - by vm_compute.
  - by vm_compute.
Defined.




(** C8.  Handling a request leaves nothing behind that a later request
    could see: a second request with the same header, handled at the same
    time in the process as the first one left it, ends in the same state
    (response, [req.user], calls made).  In particular a valid token that
    has not expired is accepted both times when it is presented twice in
    succession. *)
Theorem handling_is_repeatable `{lib : JwtLibrary}
    (next_handler : Request → completion unit) (P : Process) :
  (∀ (now : Z) (h : jsval),
     handle jwt_verify next_handler
            (proc (handle jwt_verify next_handler P now h)) now h
     = handle jwt_verify next_handler P now h)
  ∧ (∀ (h : string) (p : payload) (s : string) (e now1 now2 : Z),
       env_JWT_SECRET P = str s →
       s ≠ "" →
       JsString.replace "Bearer " "" h = jwt_sign p s →
       claim_exp p = Some e →
       now1 ≤ now2 →
       now2 < e →
       let first := handle jwt_verify next_handler P now1 (str h) in
       let second :=
         handle jwt_verify next_handler (proc first) now2 (str h) in
       second = first
       ∧ req_user (req second) = Some p
       ∧ forwarded second = true).
Proof.
  split.
  - intros now h. by rewrite handle_proc.
  - intros h p s e now1 now2 Hsecret Hs Htoken He Hle Hlt first second.
    destruct (carried_token_nonempty h p s Hs Htoken) as [Hh Hne].
    assert (∀ now, now < e →
              handle jwt_verify next_handler P now (str h)
              = handle jwt_verify next_handler P now2 (str h)) as Hsame.
    { intros now Hnow.
      rewrite !(handle_verified _ _ _ _ (str h) p Hh Hne); [done|..];
        simpl as_string; rewrite Htoken, Hsecret;
        by eapply jwt_verify_accepts. }
    unfold second, first. rewrite handle_proc.
    rewrite (Hsame now1) by lia.
    rewrite (handle_verified _ _ _ _ (str h) p Hh Hne); [done|].
    simpl as_string. rewrite Htoken, Hsecret. by eapply jwt_verify_accepts.
Qed.

Lemma handling_is_repeatable_witness :
  let first := handle Double.verify Sample.handler_returns Sample.guard
                      (Sample.issued_at + 60) (str Sample.header) in
  let second := handle Double.verify Sample.handler_returns (proc first)
                       (Sample.issued_at + 61) (str Sample.header) in
  second = first
  ∧ req_user (req second) = Some Sample.claims
  ∧ forwarded second = true.
Proof.
  apply (proj2 (handling_is_repeatable (lib := double_library)
                  Sample.handler_returns Sample.guard)
           Sample.header Sample.claims "S" (Sample.issued_at + 7 * 86400)
           (Sample.issued_at + 60) (Sample.issued_at + 61)).
  - reflexivity.
  - discriminate.
  - reflexivity.
  - by vm_compute.
  - by vm_compute.
  - by vm_compute.
Defined.

(** C9.  A rejection should mean that the next handler was not called and
    that [req.user] is unset.  The middleware breaks that on one path: the
    call of [next] sits inside the [try] block, so when [next] throws (the
    middleware called with a [next] that throws, not behind a router that
    catches the error first), the request is answered with a rejection
    although it was forwarded and [req.user] was set. *)
Lemma rejection_after_forwarding :
  let st := handle Double.verify Sample.handler_throws Sample.guard
                   (Sample.issued_at + 60) (str Sample.header) in
  res st = mkResponse 500 (Some "Server error during authentication.")
  ∧ ¬ (responded st = true →
       forwarded st = false ∧ req_user (req st) = None).
Proof.
  vm_compute. split; [done|]. intros Hclaim.
  by destruct (Hclaim eq_refl) as [? _].
Qed.

(** Every other path keeps to it.  When the middleware answers a request
    and that answer is not due to [next] having thrown, [next] was not
    called and [req.user] is unset; and [next] is called only after
    [jwt.verify] has returned, with the payload in [req.user]. *)
Lemma rejection_short_circuits
    (verify : string → jsval → Z → completion payload)
    (next_handler : Request → completion unit) (P : Process) (now : Z)
    (h : jsval) :
  let st := handle verify next_handler P now h in
  (responded st = true →
   next_threw next_handler st = false →
   forwarded st = false ∧ req_user (req st) = None)
  ∧ (forwarded st = true →
     ∃ p, verify (JsString.replace "Bearer " "" (as_string h))
                 (env_JWT_SECRET P) now = Normal p
          ∧ req_user (req st) = Some p).
Proof.
  intros st. unfold st.
  destruct (handle_paths verify P now h)
    as [Hh|[[Hh Ht]|[(Hh&Ht&err&Hv)|(Hh&Ht&p&Hv)]]].
  - rewrite handle_missing by done. by split.
  - rewrite handle_malformed by done. by split.
  - rewrite (handle_verify_throws _ _ _ _ h err) by done. by split.
  - rewrite (handle_verified _ _ _ _ h p) by done.
    unfold responded, next_threw, forwarded. project_state. split.
    + cbn [existsb is_next orb].
      by destruct (next_handler (mkRequest h (Some p))).
    + intros _. by exists p.
Qed.

Lemma rejection_short_circuits_witness :
  let st := handle Double.verify Sample.handler_throws Sample.other_guard
                   (Sample.issued_at + 60) (str Sample.header) in
  responded st = true
  ∧ next_threw Sample.handler_throws st = false
  ∧ forwarded st = false
  ∧ req_user (req st) = None.
Proof.
  split; [by vm_compute|]. split; [by vm_compute|].
  apply (proj1 (rejection_short_circuits Double.verify Sample.handler_throws
                  Sample.other_guard (Sample.issued_at + 60)
                  (str Sample.header))).
  - by vm_compute.
  - by vm_compute.
Defined.

(** C10, as the specification states it, fails: [replace] takes out the
    leftmost occurrence, which need not be the one the header is split
    at. *)
Lemma scheme_removed_elsewhere :
  let st := handle Double.verify Sample.handler_returns Sample.guard
                   (Sample.issued_at + 60)
                   (str ("Bearer a" +:+ "Bearer " +:+ "b")) in
  head (calls st) = Some (CallVerify "aBearer b" (str "S"))
  ∧ ¬ ("Bearer a" ≠ "" →
       head (calls st) = Some (CallVerify ("Bearer a" +:+ "b") (str "S"))).
Proof.
  vm_compute. split; [done|]. intros Hclaim.
  by specialize (Hclaim ltac:(discriminate)).
Qed.

(** C10, amended.  For a header [x ++ "Bearer " ++ y] with [x] not empty
    and without an occurrence of ["Bearer "] of its own, the token handed
    to [jwt.verify] is [x ++ y]: the occurrence is taken out although the
    header does not start with it, and the token is not the header. *)
Theorem scheme_removed_at_first_occurrence
    (verify : string → jsval → Z → completion payload)
    (next_handler : Request → completion unit) (P : Process) (now : Z)
    (x y : string) :
  x ≠ "" →
  JsString.includes "Bearer " x = false →
  let header := x +:+ "Bearer " +:+ y in
  let st := handle verify next_handler P now (str header) in
  head (calls st) = Some (CallVerify (x +:+ y) (env_JWT_SECRET P))
  ∧ JsString.startsWith "Bearer " header = false
  ∧ x +:+ y ≠ header.
Proof.
  intros Hx Hno header st.
  pose proof (JsStringFacts.replace_first_bearer x y Hno) as Htoken.
  assert (x +:+ y ≠ "") as Hne by by destruct x.
  split_and!.
  - destruct (handle_token_tried verify next_handler P now (str header))
      as [Hcall _].
    + apply falsy_str. by destruct x.
    + simpl as_string. unfold header. by rewrite Htoken.
    + simpl as_string in Hcall. unfold header in Hcall.
      by rewrite Htoken in Hcall.
  - apply JsStringFacts.bearer_no_overlap; [done|].
    by apply JsStringFacts.includes_false_startsWith.
  - intros Heq%(f_equal String.length). unfold header in Heq.
    rewrite !JsStringFacts.length_app in Heq. simpl in Heq. lia.
Qed.

Lemma scheme_removed_at_first_occurrence_witness :
  let header := "Token " +:+ "Bearer " +:+ Sample.token in
  let st := handle Double.verify Sample.handler_returns Sample.guard
                   (Sample.issued_at + 60) (str header) in
  head (calls st) = Some (CallVerify ("Token " +:+ Sample.token) (str "S"))
  ∧ JsString.startsWith "Bearer " header = false
  ∧ "Token " +:+ Sample.token ≠ header.
Proof.
  apply (scheme_removed_at_first_occurrence Double.verify
           Sample.handler_returns Sample.guard (Sample.issued_at + 60)
           "Token " Sample.token).
  - discriminate.
  - reflexivity.
Defined.

(** * Further properties of the middleware *)

Ltac project_state_in H :=
  cbn [fst snd proc req res calls req_authorization req_user
       res_statusCode res_sent app] in H.

Section MiddlewareBehaviour.

Variable verify : string → jsval → Z → completion payload.
Variable next_handler : Request → completion unit.
Variable P : Process.
Variable now : Z.

(** Taking the scheme out leaves nothing only when there was nothing but
    the scheme. *)
Lemma replace_bearer_empty_inv (s : string) :
  JsString.replace "Bearer " "" s = "" → s = "" ∨ s = "Bearer ".
Proof.
  destruct s as [|c s]; [by left|]. intros Hr. right.
  cbn [JsString.replace] in Hr.
  destruct (JsString.startsWith "Bearer " (String c s)) eqn:Hstart;
    [|done].
  apply JsStringFacts.startsWith_iff in Hstart as [rest Hrest].
  rewrite Hrest in Hr |- *.
  rewrite (JsStringFacts.drop_app "Bearer " rest) in Hr.
  change (rest = "") in Hr. by rewrite Hr.
Qed.

(** The answer for a missing credential is given exactly to the requests
    without the header and to those whose header is the empty string. *)
Theorem no_token_answer_iff_no_header (h : jsval) :
  res (handle verify next_handler P now h)
  = mkResponse 401 (Some "Access denied. No token provided.")
  ↔ h = undefined ∨ h = str "".
Proof.
  split.
  - intros Hres.
    destruct (handle_paths verify P now h)
      as [Hh|[[Hh Ht]|[(Hh&Ht&err&Hv)|(Hh&Ht&p&Hv)]]].
    + destruct h as [|[|c s]]; [by left|by right|done].
    + by rewrite handle_malformed in Hres.
    + rewrite (handle_verify_throws _ _ _ _ h err) in Hres by done.
      project_state_in Hres. by repeat case_match.
    + rewrite (handle_verified _ _ _ _ h p) in Hres by done.
      project_state_in Hres. by repeat case_match.
  - intros [->| ->]; by rewrite handle_missing.
Qed.

(** The answer for a malformed credential is given to one header only:
    the scheme with nothing after it. *)
Theorem invalid_format_answer_iff_bare_scheme (h : jsval) :
  res (handle verify next_handler P now h)
  = mkResponse 401 (Some "Access denied. Invalid token format.")
  ↔ h = str "Bearer ".
Proof.
  split.
  - intros Hres.
    destruct (handle_paths verify P now h)
      as [Hh|[[Hh Ht]|[(Hh&Ht&err&Hv)|(Hh&Ht&p&Hv)]]].
    + by rewrite handle_missing in Hres.
    + destruct (falsy_false_str h Hh) as (c & s & ->).
      cbn [as_string] in Ht.
      destruct (replace_bearer_empty_inv _ Ht) as [Hs|Hs]; [done|].
      by rewrite Hs.
    + by destruct (handle_token_tried verify next_handler P now h Hh Ht).
    + by destruct (handle_token_tried verify next_handler P now h Hh Ht).
  - intros ->. by rewrite handle_malformed.
Qed.

(** The calls the middleware makes: none; or [jwt.verify] once, on a
    token that is not empty and with the secret of the environment; or
    that call followed by one call of [next], on the request that carries
    what [jwt.verify] returned. *)
Theorem calls_made (h : jsval) :
  let st := handle verify next_handler P now h in
  calls st = []
  ∨ ∃ token, token ≠ ""
      ∧ (calls st = [CallVerify token (env_JWT_SECRET P)]
         ∨ ∃ p, verify token (env_JWT_SECRET P) now = Normal p
                ∧ calls st = [CallVerify token (env_JWT_SECRET P);
                              CallNext (mkRequest h (Some p))]).
Proof.
  intros st. unfold st.
  destruct (handle_paths verify P now h)
    as [Hh|[[Hh Ht]|[(Hh&Ht&err&Hv)|(Hh&Ht&p&Hv)]]].
  - left. by rewrite handle_missing.
  - left. by rewrite handle_malformed.
  - right. eexists. split; [exact Ht|]. left.
    by rewrite (handle_verify_throws _ _ _ _ h err).
  - right. eexists. split; [exact Ht|]. right. exists p. split; [done|].
    by rewrite (handle_verified _ _ _ _ h p).
Qed.

(** What the response object holds in the end is one of six things:
    nothing sent (status still 200), or one of the five fixed answers.  No
    text of the token or of the error goes into the body. *)
Theorem response_is_fixed (h : jsval) :
  res (handle verify next_handler P now h)
  ∈ [ mkResponse 200 None;
      mkResponse 401 (Some "Access denied. No token provided.");
      mkResponse 401 (Some "Access denied. Invalid token format.");
      mkResponse 401 (Some "Access denied. Invalid token.");
      mkResponse 401 (Some "Access denied. Token expired.");
      mkResponse 500 (Some "Server error during authentication.") ].
Proof.
  destruct (handle_paths verify P now h)
    as [Hh|[[Hh Ht]|[(Hh&Ht&err&Hv)|(Hh&Ht&p&Hv)]]].
  - rewrite handle_missing by done. set_solver.
  - rewrite handle_malformed by done. set_solver.
  - rewrite (handle_verify_throws _ _ _ _ h err) by done. project_state.
    repeat case_match; set_solver.
  - rewrite (handle_verified _ _ _ _ h p) by done. project_state.
    repeat case_match; set_solver.
Qed.


(** [req.user] is set exactly on the requests that are forwarded. *)
Theorem identity_iff_forwarded (h : jsval) :
  let st := handle verify next_handler P now h in
  is_Some (req_user (req st)) ↔ forwarded st = true.
Proof.
  intros st. unfold st.
  destruct (handle_paths verify P now h)
    as [Hh|[[Hh Ht]|[(Hh&Ht&err&Hv)|(Hh&Ht&p&Hv)]]].
  - rewrite handle_missing by done. split; [by intros [??]|done].
  - rewrite handle_malformed by done. split; [by intros [??]|done].
  - rewrite (handle_verify_throws _ _ _ _ h err) by done.
    split; [by intros [??]|done].
  - rewrite (handle_verified _ _ _ _ h p) by done. project_state.
    by split.
Qed.


(** A token sent the documented way, after the scheme, is the token that
    is verified: whatever the token is, even when the scheme occurs in it
    again. *)
Theorem scheme_then_token_is_verified (t : string) :
  t ≠ "" →
  head (calls (handle verify next_handler P now (str ("Bearer " +:+ t))))
  = Some (CallVerify t (env_JWT_SECRET P)).
Proof.
  intros Ht.
  pose proof (JsStringFacts.replace_at_start "Bearer " "" t) as Hrep.
  destruct (handle_token_tried verify next_handler P now
              (str ("Bearer " +:+ t))) as [Hcall _].
  - done.
  - cbn [as_string]. by rewrite Hrep.
  - cbn [as_string] in Hcall. by rewrite Hrep in Hcall.
Qed.

(** An error thrown by the next handler is answered like an error of
    [jwt.verify], by its name, on a request that already carries the
    identity. *)
Theorem handler_error_is_answered (h : string) (p : payload) (err : Error) :
  JsString.replace "Bearer " "" h ≠ "" →
  verify (JsString.replace "Bearer " "" h) (env_JWT_SECRET P) now
  = Normal p →
  next_handler (mkRequest (str h) (Some p)) = Throw err →
  let st := handle verify next_handler P now (str h) in
  req_user (req st) = Some p
  ∧ forwarded st = true
  ∧ res st
    = if String.eqb (name err) "JsonWebTokenError"
      then mkResponse 401 (Some "Access denied. Invalid token.")
      else if String.eqb (name err) "TokenExpiredError"
      then mkResponse 401 (Some "Access denied. Token expired.")
      else mkResponse 500 (Some "Server error during authentication.").
Proof.
  intros Hne Hv Hnext st.
  assert (falsy (str h) = false) as Hh.
  { destruct h; [|done]. by destruct Hne. }
  unfold st. rewrite (handle_verified _ _ _ _ (str h) p Hh Hne Hv).
  project_state. by rewrite Hnext.
Qed.

End MiddlewareBehaviour.

Lemma scheme_then_token_is_verified_witness :
  head (calls (handle Double.verify Sample.handler_returns Sample.guard
                      (Sample.issued_at + 60)
                      (str ("Bearer " +:+ "Bearer abc"))))
  = Some (CallVerify "Bearer abc" (str "S")).
Proof.
  apply (scheme_then_token_is_verified Double.verify Sample.handler_returns
           Sample.guard (Sample.issued_at + 60) "Bearer abc").
  discriminate.
Defined.

Lemma handler_error_is_answered_witness :
  let st := handle Double.verify
              (λ _, Throw (mkError "TokenExpiredError" "downstream"))
              Sample.guard (Sample.issued_at + 60) (str Sample.header) in
  req_user (req st) = Some Sample.claims
  ∧ forwarded st = true
  ∧ res st = mkResponse 401 (Some "Access denied. Token expired.").
Proof.
  apply (handler_error_is_answered Double.verify
           (λ _, Throw (mkError "TokenExpiredError" "downstream"))
           Sample.guard (Sample.issued_at + 60) Sample.header Sample.claims
           (mkError "TokenExpiredError" "downstream")).
  - by vm_compute.
  - by vm_compute.
  - reflexivity.
Defined.


(** * The secret generator *)

Module ReadmeFacts.
Import Readme.

Lemma get_in_range (k : nat) (s : string) :
  (k < String.length s)%nat →
  ∃ c, String.get k s = Some c ∧ c ∈ list_ascii_of_string s.
Proof.
  revert k. induction s as [|a s IH]; intros k Hk; simpl in *; [lia|].
  destruct k as [|k].
  - exists a. split; [done|]. by left.
  - destruct (IH k) as (c & Hget & Hin); [lia|].
    exists c. split; [done|]. by right.
Qed.

Lemma secrets_choice_in (r : nat) (seq : string) :
  seq ≠ "" →
  ∃ c, secrets_choice r seq = Some c ∧ c ∈ list_ascii_of_string seq.
Proof.
  intros Hseq. unfold secrets_choice.
  destruct (String.length seq) as [|n] eqn:Hlen.
  - by destruct seq.
  - rewrite <- Hlen. apply get_in_range. apply Nat.mod_upper_bound. lia.
Qed.

Lemma length_string_of_list_ascii (l : list ascii) :
  String.length (string_of_list_ascii l) = length l.
Proof. induction l as [|a l IH]; simpl; [done | by rewrite IH]. Qed.

Lemma mapM_choice (rng : nat → nat) (seq : string) (indices : list nat) :
  seq ≠ "" →
  ∃ picks, mapM (λ i, secrets_choice (rng i) seq) indices = Some picks
           ∧ length picks = length indices
           ∧ Forall (λ c, c ∈ list_ascii_of_string seq) picks.
Proof.
  intros Hseq. induction indices as [|i indices IH].
  - exists []. by split_and!.
  - destruct IH as (picks & Hpicks & Hlen & Hall).
    destruct (secrets_choice_in (rng i) seq Hseq) as (c & Hc & Hin).
    exists (c :: picks). split_and!.
    + cbn [mapM]. by rewrite Hc, Hpicks.
    + simpl. by rewrite Hlen.
    + by constructor.
Qed.

End ReadmeFacts.

(** Whatever the random source yields, [generate_jwt_secret] returns a
    secret (no pick fails), the secret has [length] characters (none if
    [length] is not positive), and each of them is one of the 70
    characters of the alphabet. *)
Theorem generated_secret_shape (rng : nat → nat) (length : Z) :
  ∃ secret,
    Readme.generate_jwt_secret rng length = Some secret
    ∧ String.length secret = Z.to_nat length
    ∧ Forall (λ c, c ∈ list_ascii_of_string
                         (Readme.ascii_letters +:+ Readme.digits
                          +:+ "!@#$%^&*"))
             (list_ascii_of_string secret).
Proof.
  unfold Readme.generate_jwt_secret.
  destruct (ReadmeFacts.mapM_choice rng
              (Readme.ascii_letters +:+ Readme.digits +:+ "!@#$%^&*")
              (seq 0 (Z.to_nat length)))
    as (picks & Hpicks & Hlen & Hall); [done|].
  exists (string_of_list_ascii picks). split_and!.
  - cbv zeta. by rewrite Hpicks.
  - by rewrite ReadmeFacts.length_string_of_list_ascii, Hlen, length_seq.
  - by rewrite list_ascii_of_string_of_list_ascii.
Qed.
